(** * The recording iteration stack of OpenMDAO

    A shallow embedding of [openmdao/recorders/recording_iteration_stack.py]:
    the module-level object [recording_iteration], the coordinate formatter
    [get_formatted_iteration_coordinate] and the context manager [Recording].

    Python's mutable module state is threaded explicitly through a small
    state-and-exception monad; a raised exception keeps the state reached so
    far, as in Python, where nothing is rolled back. *)

From Stdlib Require Import List String Ascii ZArith Bool Lia.
From Stdlib Require Import DecimalString SpecFloat.
Import ListNotations.
Local Open Scope string_scope.
Local Open Scope Z_scope.

(** ** The parts of Python the module relies on *)

(** The exceptions that can cross the module: the two the interpreter raises
    by itself here, and whatever the code around it raises. *)
Inductive exn : Type :=
| IndexError                  (* [[].pop()] *)
| AttributeError              (* [None.record_iteration] *)
| NameError                   (* [rec] read in a function that never bound it *)
| UserError (tag : string).   (* raised by a requester or by a scope body *)

(** [abs] and [rel] start as the integer [0] and are documented as floats. *)
Inductive number : Type :=
| PyInt (z : Z)
| PyFloat (f : spec_float).

Module Py.

(** [str(z)], which is also what ['%d' % z] and ['{}'.format(z)] give for
    an integer. *)
Definition str_int (z : Z) : string := NilZero.string_of_int (Z.to_int z).

(** [sep.join(l)] *)
Fixpoint join (sep : string) (l : list string) : string :=
  match l with
  | [] => ""
  | [s] => s
  | s :: rest => s ++ sep ++ join sep rest
  end.

(** [l.pop()]: the last element and the list without it; [IndexError] on
    an empty list. *)
Fixpoint pop {A : Type} (l : list A) : exn + (list A * A) :=
  match l with
  | [] => inl IndexError
  | [x] => inr ([], x)
  | x :: rest =>
      match pop rest with
      | inl e => inl e
      | inr (rest', last) => inr (x :: rest', last)
      end
  end.

(** ['%s' % p] for a [str or None]. *)
Definition percent_s (p : option string) : string :=
  match p with
  | Some s => s
  | None => "None"
  end.

(** Truth value of a [str or None]: [None] and [''] are false. *)
Definition truthy (s : option string) : bool :=
  match s with
  | None => false
  | Some EmptyString => false
  | Some (String _ _) => true
  end.

End Py.

(** ** [_RecIteration] *)

(** One entry of the stack: the tuple [(name, iter_count)]. *)
Definition Frame : Type := (string * Z)%type.

Record _RecIteration : Type := Build_RecIteration {
  stack : list Frame;          (* outermost first; the tail is the top *)
  prefix : option string       (* [str or None] *)
}.

(** [_RecIteration.__init__(self)]: both attributes are assigned, whatever
    [self] held before. *)
Definition _RecIteration__init__ (self : _RecIteration) : _RecIteration :=
  {| stack := []; prefix := None |}.

(** The object a fresh [_RecIteration()] evaluates to, which is the value
    of the module-level [recording_iteration] at import. *)
Definition recording_iteration_initial : _RecIteration :=
  _RecIteration__init__ {| stack := []; prefix := None |}.

(** ** The world: module state and the calls made on requesters *)

(** The arguments [record_iteration] is called with. *)
Inductive call_args : Type :=
| NoArgs                            (* [record_iteration()] *)
| AbsRel (abs rel : number).        (* [record_iteration(abs=.., rel=..)] *)

(** A call of [record_iteration] on the requester identified by [who]. *)
Record event : Type := Called { who : nat; args : call_args }.

Record World : Type := {
  recording_iteration : _RecIteration;
  trace : list event                  (* oldest call first *)
}.

(** [openmdao.utils.mpi.MPI] is imported from outside this file: it is
    either [None] or a module whose [COMM_WORLD.rank] is an integer. It is
    taken as a parameter, [Some rank] standing for the module. *)
Definition MPI_t : Type := option Z.

(** ** The monad: state [World], exceptions [exn] *)

Inductive outcome (A : Type) : Type :=
| Ok (a : A)
| Raise (e : exn).
Arguments Ok {A} a.
Arguments Raise {A} e.

Definition M (A : Type) : Type := World -> outcome A * World.

Definition ret {A} (a : A) : M A := fun w => (Ok a, w).
Definition raise {A} (e : exn) : M A := fun w => (Raise e, w).
Definition bind {A B} (m : M A) (k : A -> M B) : M B :=
  fun w =>
    match m w with
    | (Ok a, w') => k a w'
    | (Raise e, w') => (Raise e, w')
    end.
Definition get : M World := fun w => (Ok w, w).
Definition put (w : World) : M unit := fun _ => (Ok tt, w).

Declare Scope py_scope.
Delimit Scope py_scope with py.
Notation "x <- m ;; k" := (bind m (fun x => k))
  (at level 61, m at next level, right associativity) : py_scope.
Notation "m ;;; k" := (bind m (fun _ => k))
  (at level 61, right associativity) : py_scope.
Local Open Scope py_scope.

(** Reading and writing [recording_iteration.stack]. *)
Definition get_stack : M (list Frame) :=
  w <- get ;; ret (stack (recording_iteration w)).

Definition set_stack (l : list Frame) : M unit :=
  w <- get ;;
  put {| recording_iteration :=
           {| stack := l; prefix := prefix (recording_iteration w) |};
         trace := trace w |}.

(** ** [get_formatted_iteration_coordinate] *)

Definition separator : string := "|".

(** The loop filling [coord_list], one [append] per frame, in stack order. *)
Fixpoint coord_loop (frames : list Frame) (coord_list : list string)
  : list string :=
  match frames with
  | [] => coord_list
  | (name, iter_count) :: rest =>
      coord_loop rest
        (coord_list ++ [name ++ separator ++ Py.str_int iter_count])
  end.

(** The string computed from the values read. *)
Definition format_coordinate (MPI : MPI_t) (ri : _RecIteration) : string :=
  let prefix0 :=
    if Py.truthy (prefix ri)
    then Py.percent_s (prefix ri) ++ "_"
    else "" in
  let prefix1 :=
    match MPI with
    | Some rank => prefix0 ++ "rank" ++ Py.str_int rank ++ ":"
    | None => prefix0 ++ "rank0:"
    end in
  let coord_list := coord_loop (stack ri) [] in
  prefix1 ++ Py.join separator coord_list.

(** The function as the module has it: it reads the module state. *)
Definition get_formatted_iteration_coordinate (MPI : MPI_t) : M string :=
  w <- get ;; ret (format_coordinate MPI (recording_iteration w)).


(** ** Requesters *)

(** The object that wants to be recorded, as far as this module sees it:
    whether it is an instance of [openmdao.solvers.solver.Solver], and its
    method [record_iteration], which belongs to the caller's code. The method
    is given the arguments of the call and the world it is called in, and
    either returns ([None]) or raises; it reads the iteration stack and does
    not write it. *)
Record Requester : Type := {
  req_id : nat;
  is_Solver : bool;
  record_iteration : call_args -> World -> option exn
}.

(** [requester.record_iteration(...)], where [requester] may be [None]. *)
Definition call_record_iteration (requester : option Requester)
  (a : call_args) : M unit :=
  match requester with
  | None => raise AttributeError
  | Some r =>
      w <- get ;;
      put {| recording_iteration := recording_iteration w;
             trace := trace w ++ [Called (req_id r) a] |} ;;;
      match record_iteration r a w with
      | None => ret tt
      | Some e => raise e
      end
  end.

(** ** [Recording] *)

Record Recording : Type := {
  name : string;
  iter_count : Z;
  recording_requester : option Requester;   (* [None] once released *)
  abs : number;
  rel : number;
  _is_solver : bool
}.

(** [Recording.__init__(self, name, iter_count, recording_requester)] *)
Definition Recording__init__ (name0 : string) (iter_count0 : Z)
  (requester : option Requester) : Recording :=
  {| name := name0;
     iter_count := iter_count0;
     recording_requester := requester;
     abs := PyInt 0;
     rel := PyInt 0;
     _is_solver := match requester with
                   | Some r => is_Solver r
                   | None => false
                   end |}.

(** [rec.abs = a; rec.rel = r], as callers do while the scope is open. *)
Definition set_abs_rel (self : Recording) (a r : number) : Recording :=
  {| name := name self;
     iter_count := iter_count self;
     recording_requester := recording_requester self;
     abs := a;
     rel := r;
     _is_solver := _is_solver self |}.

(** [Recording.__enter__(self)] *)
Definition Recording__enter__ (self : Recording) : M Recording :=
  s <- get_stack ;;
  set_stack (s ++ [(name self, iter_count self)]) ;;;
  ret self.

(** [n in ('_run_apply', '_compute_totals')] *)
Definition in_denylist (n : string) : bool :=
  String.eqb n "_run_apply" || String.eqb n "_compute_totals".

(** The loop over the stack that decides [do_recording]; it leaves at the
    first frame whose name is in the tuple. *)
Fixpoint recording_justified (items : list Frame) (do_recording : bool)
  : bool :=
  match items with
  | [] => do_recording
  | stack_item :: rest =>
      if in_denylist (fst stack_item) then false
      else recording_justified rest do_recording
  end.

(** [recording_iteration.stack.pop()] *)
Definition stack_pop : M unit :=
  s <- get_stack ;;
  match Py.pop s with
  | inl e => raise e
  | inr (s', _) => set_stack s'
  end.

(** [Recording.__exit__(self, *args)]; the result is [self] as the method
    leaves it. The arguments describing the exception of the body are not
    read. The method returns [None], so an exception of the body is not
    swallowed. *)
Definition Recording__exit__ (self : Recording) : M Recording :=
  s <- get_stack ;;
  let do_recording := recording_justified s true in
  (if do_recording then
     if _is_solver self then
       call_record_iteration (recording_requester self)
         (AbsRel (abs self) (rel self))
     else
       call_record_iteration (recording_requester self) NoArgs
   else ret tt) ;;;
  let self' := {| name := name self;
                  iter_count := iter_count self;
                  recording_requester := None;
                  abs := abs self;
                  rel := rel self;
                  _is_solver := _is_solver self |} in
  stack_pop ;;;
  ret self'.

(** ** Scopes: [with Recording(name, iter_count, requester) as rec: body] *)

(** The programs that open and close scopes. Scopes nest through calls: the
    body of a scope calls the code of another object (a solver, a system),
    and that code opens a scope of its own. So [WithRecording n c q body]
    stands for the call of a function of its own,

      def f():
          with Recording(n, c, q) as rec:
              body

    and the name [rec] is a local variable of that function: it is bound to
    the manager of this scope for the whole body, and the scopes opened by
    the calls made in the body bind the [rec] of their own functions, not
    this one. [AssignAbsRel a r] is [rec.abs = a; rec.rel = r] on the [rec]
    of the function the statement belongs to. A program run outside any
    scope belongs to a function in which [rec] is not bound. *)
Inductive stmt : Type :=
| Pass
| RaiseStmt (e : exn)
| Seq (s1 s2 : stmt)
| AssignAbsRel (a r : number)               (* [rec.abs = a; rec.rel = r] *)
| WithRecording (name0 : string) (iter_count0 : Z)
    (requester : option Requester) (body : stmt).

(** Python's [with] statement: [__enter__], the body, then [__exit__] on
    every way out of the body. [__exit__] returns a false value, so an
    exception of the body goes on after it; an exception of [__exit__]
    itself takes its place. [cur] is the object that [rec] is bound to in
    the function the statement belongs to: the manager of the scope whose
    body the statement is part of, or nothing outside any scope. A scope
    opened in the body runs in a function of its own, so [cur] is the same
    after it as before it. *)
Fixpoint exec (s : stmt) (cur : option Recording) (w : World)
  : outcome unit * option Recording * World :=
  match s with
  | Pass => (Ok tt, cur, w)
  | RaiseStmt e => (Raise e, cur, w)
  | Seq s1 s2 =>
      match exec s1 cur w with
      | (Ok _, cur1, w1) => exec s2 cur1 w1
      | (Raise e, cur1, w1) => (Raise e, cur1, w1)
      end
  | AssignAbsRel a r =>
      match cur with
      | Some self => (Ok tt, Some (set_abs_rel self a r), w)
      | None => (Raise NameError, None, w)
      end
  | WithRecording name0 iter_count0 requester body =>
      let mgr := Recording__init__ name0 iter_count0 requester in
      match Recording__enter__ mgr w with
      | (Raise e, w1) => (Raise e, cur, w1)
      | (Ok rec, w1) =>
          match exec body (Some rec) w1 with
          | (Ok _, rec2, w2) =>
              match Recording__exit__ (match rec2 with
                                       | Some r => r
                                       | None => rec
                                       end) w2 with
              | (Ok _, w3) => (Ok tt, cur, w3)
              | (Raise e, w3) => (Raise e, cur, w3)
              end
          | (Raise e, rec2, w2) =>
              match Recording__exit__ (match rec2 with
                                       | Some r => r
                                       | None => rec
                                       end) w2 with
              | (Ok _, w3) => (Raise e, cur, w3)
              | (Raise e', w3) => (Raise e', cur, w3)
              end
          end
      end
  end.

(** Running a program at top level, outside any scope. *)
Definition run (s : stmt) (w : World) : outcome unit * World :=
  let '(o, _, w') := exec s None w in (o, w').

(** Modelled from the spec: [reset()] of the iteration stack, which the
    module does not define (the class docstring only says that tests reset the
    stack). The spec: "clears frames and prefix to initial empty state". *)
Definition reset (ri : _RecIteration) : _RecIteration :=
  {| stack := []; prefix := None |}.

(** The world at import: the initial [recording_iteration], no call yet. *)
Definition world0 : World :=
  {| recording_iteration := recording_iteration_initial; trace := [] |}.

(** The stack depth of a world. *)
Definition depth (w : World) : nat :=
  List.length (stack (recording_iteration w)).

(** Sample requesters. *)
Definition plain_requester : Requester :=
  {| req_id := 1; is_Solver := false; record_iteration := fun _ _ => None |}.

Definition solver_requester : Requester :=
  {| req_id := 2; is_Solver := true; record_iteration := fun _ _ => None |}.

Definition failing_requester : Requester :=
  {| req_id := 3; is_Solver := false;
     record_iteration := fun _ _ => Some (UserError "record failed") |}.


(** ** [print_recording_iteration_stack] *)

Module PyOut.

(** [n * s] for a string [s]. *)
Fixpoint str_mul (n : nat) (s : string) : string :=
  match n with
  | O => ""
  | S n' => s ++ str_mul n' s
  end.

(** The text that one call [print(a, b, ...)] writes before the newline
    that ends it: the arguments, already turned into strings, with one space
    between them; nothing for [print()]. The text holds a newline of its own
    when an argument does. *)
Definition print_text (items : list string) : string := Py.join " " items.

End PyOut.

(** The loop over [reversed(recording_iteration.stack)]: one call of
    [print] per frame met, its text added after the texts written so far. *)
Fixpoint print_loop (items : list Frame) (out : list string) : list string :=
  match items with
  | [] => out
  | (name, iter_count) :: rest =>
      print_loop rest
        (out ++ [PyOut.print_text ["^^^"; name; Py.str_int iter_count]])
  end.

(** The function; its result is the list of the texts its calls of [print]
    write to standard output, one item per call, first call first. On the
    output each text is followed by a newline. *)
Definition print_recording_iteration_stack : M (list string) :=
  w <- get ;;
  let out := [PyOut.print_text []] in
  let out := print_loop (rev (stack (recording_iteration w))) out in
  ret (out ++ [PyOut.print_text [PyOut.str_mul 60 "^"]])%list.

(** ** Measures of a program of scopes *)

(** The number of [with Recording(...)] blocks of a program. *)
Fixpoint count_scopes (s : stmt) : nat :=
  match s with
  | Pass | RaiseStmt _ | AssignAbsRel _ _ => 0
  | Seq s1 s2 => (count_scopes s1 + count_scopes s2)%nat
  | WithRecording _ _ _ body => S (count_scopes body)
  end.

(** ** Vocabulary of the statements *)

(** How one frame is rendered. *)
Definition render (f : Frame) : string :=
  fst f ++ separator ++ Py.str_int (snd f).

(** The arguments a closure calls [record_iteration] with. *)
Definition dispatch_args (self : Recording) : call_args :=
  if _is_solver self then AbsRel (abs self) (rel self) else NoArgs.

(** The world once a call on [r] has been recorded. *)
Definition logged (w : World) (r : Requester) (a : call_args) : World :=
  {| recording_iteration := recording_iteration w;
     trace := trace w ++ [Called (req_id r) a] |}.

(** [self] once its requester has been released. *)
Definition released (self : Recording) : Recording :=
  {| name := name self;
     iter_count := iter_count self;
     recording_requester := None;
     abs := abs self;
     rel := rel self;
     _is_solver := _is_solver self |}.

(** No frame of the stack bears one of the two names of the tuple. *)
Definition no_sentinel (frames : list Frame) : Prop :=
  Forall (fun f => fst f <> "_run_apply" /\ fst f <> "_compute_totals") frames.

(** What remains to be done once the callback is over: the pop. *)
Definition pop_and_return (self : Recording) (w : World)
  : outcome Recording * World :=
  match stack_pop w with
  | (Ok _, w') => (Ok (released self), w')
  | (Raise e, w') => (Raise e, w')
  end.

(** Every scope of the program has a requester whose callback returns. *)
Fixpoint callbacks_return (s : stmt) : Prop :=
  match s with
  | Pass | RaiseStmt _ | AssignAbsRel _ _ => True
  | Seq s1 s2 => callbacks_return s1 /\ callbacks_return s2
  | WithRecording _ _ requester body =>
      (exists r, requester = Some r
                 /\ forall a w, record_iteration r a w = None)
      /\ callbacks_return body
  end.

(** Two states of the object of one scope: they differ at most by the
    error values. *)
Definition same_scope (r1 r2 : Recording) : Prop :=
  name r1 = name r2
  /\ iter_count r1 = iter_count r2
  /\ recording_requester r1 = recording_requester r2
  /\ _is_solver r1 = _is_solver r2.

Definition same_binding (c1 c2 : option Recording) : Prop :=
  match c1, c2 with
  | Some r1, Some r2 => same_scope r1 r2
  | None, None => True
  | _, _ => False
  end.

(** The call that a closure attempts goes well: the closure is suppressed
    and attempts none, or the requester is there and its callback returns.
    It goes wrong when the callback raises, and when the requester is absent
    at a closure that is not suppressed. *)
Definition closure_call_ok (self : Recording) (w : World) : bool :=
  if recording_justified (stack (recording_iteration w)) true then
    match recording_requester self with
    | Some r =>
        match record_iteration r (dispatch_args self) w with
        | None => true
        | Some _ => false
        end
    | None => false
    end
  else true.

(** The number of closures, among those met while the program runs from
    [cur] and [w], whose call goes wrong. It follows [exec] step by step. *)
Fixpoint failed_closures (s : stmt) (cur : option Recording) (w : World)
  : nat :=
  match s with
  | Pass | RaiseStmt _ | AssignAbsRel _ _ => 0
  | Seq s1 s2 =>
      (failed_closures s1 cur w
       + match exec s1 cur w with
         | (Ok _, cur1, w1) => failed_closures s2 cur1 w1
         | (Raise _, _, _) => 0
         end)%nat
  | WithRecording name0 iter_count0 requester body =>
      let mgr := Recording__init__ name0 iter_count0 requester in
      match Recording__enter__ mgr w with
      | (Raise _, _) => 0%nat
      | (Ok rec, w1) =>
          match exec body (Some rec) w1 with
          | (_, rec2, w2) =>
              (failed_closures body (Some rec) w1
               + if closure_call_ok (match rec2 with
                                     | Some r => r
                                     | None => rec
                                     end) w2
                 then 0 else 1)%nat
          end
      end
  end.

(** A requester whose callback raises in the worlds where the stack is
    deeper than two frames, and returns in the others. *)
Definition picky_requester : Requester :=
  {| req_id := 4; is_Solver := false;
     record_iteration :=
       fun _ w =>
         if (2 <? Z.of_nat (List.length (stack (recording_iteration w))))
         then Some (UserError "too deep")
         else None |}.

(** * Properties *)

(** ** Python helpers *)

Lemma pop_snoc {A : Type} (l : list A) (x : A) :
  Py.pop (l ++ [x]) = inr (l, x).
Proof.
  induction l as [|y l IH]; [reflexivity|].
  change ((y :: l) ++ [x])%list with (y :: (l ++ [x]))%list.
  cbn [Py.pop]. rewrite IH.
  destruct (l ++ [x])%list eqn:E; [|reflexivity].
  destruct l; discriminate.
Qed.

Lemma pop_empty_iff {A : Type} (l : list A) :
  Py.pop l = inl IndexError <-> l = [].
Proof.
  split; [|intros ->; reflexivity].
  destruct l as [|x l] using rev_ind; [reflexivity|].
  rewrite pop_snoc. discriminate.
Qed.

Lemma join_nil (sep : string) : Py.join sep [] = "".
Proof. reflexivity. Qed.

(** ** The formatter *)

(** The loop appends the frames' renderings in stack order. *)
Lemma coord_loop_map (frames : list Frame) (acc : list string) :
  coord_loop frames acc = (acc ++ map render frames)%list.
Proof.
  revert acc. induction frames as [|[n c] frames IH]; intros acc; cbn.
  - now rewrite app_nil_r.
  - rewrite IH, <- app_assoc. reflexivity.
Qed.

Lemma format_coordinate_unfold (MPI : MPI_t) (ri : _RecIteration) :
  format_coordinate MPI ri =
  ((if Py.truthy (prefix ri) then Py.percent_s (prefix ri) ++ "_" else "")
   ++ "rank" ++ match MPI with Some rank => Py.str_int rank | None => "0" end
   ++ ":")
  ++ Py.join separator (map render (stack ri)).
Proof.
  unfold format_coordinate. rewrite coord_loop_map. cbn [app].
  destruct MPI; [|reflexivity].
  f_equal.
Qed.

(** The formatter reads the world and hands it back as it was. *)
Lemma get_formatted_iteration_coordinate_run (MPI : MPI_t) (w : World) :
  get_formatted_iteration_coordinate MPI w =
  (Ok (format_coordinate MPI (recording_iteration w)), w).
Proof. reflexivity. Qed.

(** Frames pushed by two scopes opened one inside the other are rendered in
    the order they were pushed. *)
Example format_after_two_enters :
  let root := Recording__init__ "root" 6 (Some plain_requester) in
  let mda := Recording__init__ "mda" 45 (Some solver_requester) in
  fst ((Recording__enter__ root ;;;
        Recording__enter__ mda ;;;
        get_formatted_iteration_coordinate None) world0)
  = Ok "rank0:root|6|mda|45".
Proof. reflexivity. Qed.

(** C5: with the stack [("root", 6); ("mda", 45)], no prefix and rank 0
    (no MPI at all, or MPI with rank 0), the formatter returns exactly
    "rank0:root|6|mda|45": the frames appear in insertion order, outermost
    first. *)
Theorem format_root_mda (tr : list event) :
  let w := {| recording_iteration :=
                {| stack := [("root", 6); ("mda", 45)]; prefix := None |};
              trace := tr |} in
  get_formatted_iteration_coordinate None w = (Ok "rank0:root|6|mda|45", w)
  /\ get_formatted_iteration_coordinate (Some 0) w
     = (Ok "rank0:root|6|mda|45", w).
Proof. split; reflexivity. Qed.

(** C6: with an empty stack, no prefix and rank 0, the formatter returns
    exactly "rank0:", the prefix and rank segment alone, with no separator
    after it. *)
Theorem format_empty_stack (tr : list event) :
  let w := {| recording_iteration := {| stack := []; prefix := None |};
              trace := tr |} in
  get_formatted_iteration_coordinate None w = (Ok "rank0:", w)
  /\ get_formatted_iteration_coordinate (Some 0) w = (Ok "rank0:", w).
Proof. split; reflexivity. Qed.

(** The scenario of the spec: three frames and a prefix, then [reset]. *)
Example reset_three_frames :
  let ri := {| stack := [("driver", 1); ("root", 6); ("mda", 45)];
               prefix := Some "run1" |} in
  format_coordinate None ri = "run1_rank0:driver|1|root|6|mda|45"
  /\ reset ri = {| stack := []; prefix := None |}
  /\ format_coordinate None (reset ri) = "rank0:".
Proof. repeat split. Qed.

(** C7: [reset] on an iteration stack in any state leaves no frame and no
    prefix, which is the state [_RecIteration.__init__] establishes, so that
    formatting afterwards gives the string of the initial, empty stack. *)
Theorem reset_is_initial (ri : _RecIteration) (MPI : MPI_t) :
  stack (reset ri) = []
  /\ prefix (reset ri) = None
  /\ reset ri = recording_iteration_initial
  /\ format_coordinate MPI (reset ri)
     = format_coordinate MPI recording_iteration_initial.
Proof. repeat split. Qed.

(** C8: the formatter is deterministic and has no effect: called twice in a
    row on any world, it returns the same string both times, the one
    determined by the stack, the prefix and the rank, and the world after
    the calls (stack, prefix and all) is the world before them. *)
Theorem format_deterministic_pure (MPI : MPI_t) (w : World) :
  (s1 <- get_formatted_iteration_coordinate MPI ;;
   s2 <- get_formatted_iteration_coordinate MPI ;;
   ret (s1, s2)) w
  = (Ok (format_coordinate MPI (recording_iteration w),
         format_coordinate MPI (recording_iteration w)), w).
Proof.
  unfold bind. rewrite !get_formatted_iteration_coordinate_run. reflexivity.
Qed.

(** The string does not depend on the calls recorded so far. *)
Lemma format_ignores_trace (MPI : MPI_t) (ri : _RecIteration)
  (tr1 tr2 : list event) :
  fst (get_formatted_iteration_coordinate MPI
         {| recording_iteration := ri; trace := tr1 |})
  = fst (get_formatted_iteration_coordinate MPI
           {| recording_iteration := ri; trace := tr2 |}).
Proof. reflexivity. Qed.

(** C10: a prefix that is the empty string is formatted like an absent
    prefix: the test on the prefix is a truth test, so no "<prefix>_"
    segment is produced. *)
Theorem format_empty_prefix_as_none (MPI : MPI_t) (frames : list Frame) :
  format_coordinate MPI {| stack := frames; prefix := Some "" |}
  = format_coordinate MPI {| stack := frames; prefix := None |}.
Proof. reflexivity. Qed.

(** X4: a prefix that is not empty is put in front of the coordinate,
    followed by "_": the coordinate is the prefix, "_", and the coordinate
    that the same stack and rank give without prefix. *)
Lemma format_nonempty_prefix (MPI : MPI_t) (frames : list Frame)
  (c : ascii) (p : string) :
  format_coordinate MPI {| stack := frames; prefix := Some (String c p) |}
  = String c p ++ "_"
    ++ format_coordinate MPI {| stack := frames; prefix := None |}.
Proof.
  rewrite !format_coordinate_unfold. cbn [prefix Py.truthy Py.percent_s stack].
  generalize (Py.join separator (map render frames)).
  generalize (match MPI with Some rank => Py.str_int rank | None => "0" end).
  intros r j. cbn [append]. f_equal.
  induction p as [|a p IH]; cbn [append]; [reflexivity|].
  f_equal. exact IH.
Qed.

(** ** [pop] *)

Lemma get_stack_run (w : World) :
  get_stack w = (Ok (stack (recording_iteration w)), w).
Proof. reflexivity. Qed.

Lemma stack_pop_snoc (ri_stack : list Frame) (f : Frame)
  (p : option string) (tr : list event) :
  stack_pop {| recording_iteration :=
                 {| stack := ri_stack ++ [f]; prefix := p |};
               trace := tr |}
  = (Ok tt, {| recording_iteration := {| stack := ri_stack; prefix := p |};
              trace := tr |}).
Proof.
  unfold stack_pop, bind. rewrite get_stack_run. cbn [stack recording_iteration].
  rewrite pop_snoc. reflexivity.
Qed.

(** C9: popping the iteration stack raises [IndexError] exactly when the
    stack is empty, leaving the world as it was; on a stack that is not
    empty it never raises, and removes the tail frame and nothing else. *)
Theorem stack_pop_fails_iff_empty (w : World) :
  (stack (recording_iteration w) = [] <->
   stack_pop w = (Raise IndexError, w))
  /\ (stack (recording_iteration w) <> [] <->
      exists rest f,
        stack (recording_iteration w) = (rest ++ [f])%list
        /\ stack_pop w
           = (Ok tt, {| recording_iteration :=
                          {| stack := rest;
                             prefix := prefix (recording_iteration w) |};
                        trace := trace w |})).
Proof.
  destruct w as [[st p] tr]. cbn [stack prefix recording_iteration trace].
  destruct st as [|f st] using rev_ind.
  - split; split; try reflexivity; try congruence.
    intros (rest & f & E & _). destruct rest; discriminate.
  - rewrite stack_pop_snoc. split; split.
    + intros E. destruct st; discriminate.
    + discriminate.
    + intros _. exists st, f. split; reflexivity.
    + intros _ E. destruct st; discriminate.
Qed.

(** ** Scope closure *)

Lemma in_denylist_true (n : string) :
  in_denylist n = true <-> n = "_run_apply" \/ n = "_compute_totals".
Proof.
  unfold in_denylist. rewrite orb_true_iff, !String.eqb_eq. reflexivity.
Qed.

Lemma in_denylist_false (n : string) :
  in_denylist n = false <-> n <> "_run_apply" /\ n <> "_compute_totals".
Proof.
  unfold in_denylist. rewrite orb_false_iff, !String.eqb_neq. reflexivity.
Qed.

(** The loop answers [False] as soon as a frame anywhere bears a sentinel. *)
Lemma recording_justified_sentinel (pre post : list Frame) (f : Frame)
  (b : bool) :
  in_denylist (fst f) = true ->
  recording_justified (pre ++ f :: post) b = false.
Proof.
  intros Hf. induction pre as [|g pre IH]; cbn.
  - now rewrite Hf.
  - destruct (in_denylist (fst g)); [reflexivity|exact IH].
Qed.

Lemma recording_justified_no_sentinel (frames : list Frame) (b : bool) :
  no_sentinel frames -> recording_justified frames b = b.
Proof.
  induction 1 as [|f frames Hf _ IH]; cbn; [reflexivity|].
  apply in_denylist_false in Hf. now rewrite Hf.
Qed.

(** The loop answers [True] only when no frame bears a sentinel. *)
Lemma recording_justified_true (frames : list Frame) :
  recording_justified frames true = true <-> no_sentinel frames.
Proof.
  split; [|apply recording_justified_no_sentinel].
  induction frames as [|f frames IH]; cbn; [constructor|].
  destruct (in_denylist (fst f)) eqn:E; [discriminate|].
  intros H. constructor; [now apply in_denylist_false|exact (IH H)].
Qed.

(** [__exit__] by cases: suppressed or not, requester present or not,
    callback returning or raising. *)
Lemma Recording__exit__cases (self : Recording) (w : World) :
  Recording__exit__ self w =
  if recording_justified (stack (recording_iteration w)) true then
    match recording_requester self with
    | None => (Raise AttributeError, w)
    | Some r =>
        match record_iteration r (dispatch_args self) w with
        | Some e => (Raise e, logged w r (dispatch_args self))
        | None => pop_and_return self (logged w r (dispatch_args self))
        end
    end
  else pop_and_return self w.
Proof.
  unfold Recording__exit__.
  replace (if _is_solver self
           then call_record_iteration (recording_requester self)
                  (AbsRel (abs self) (rel self))
           else call_record_iteration (recording_requester self) NoArgs)
    with (call_record_iteration (recording_requester self)
            (dispatch_args self))
    by (unfold dispatch_args; destruct (_is_solver self); reflexivity).
  unfold pop_and_return, logged. fold (released self).
  generalize (dispatch_args self) as a. intros a.
  cbv [bind get_stack get put ret raise call_record_iteration].
  cbn [stack recording_iteration].
  destruct (recording_justified _ true).
  - destruct (recording_requester self) as [r|]; [|reflexivity].
    destruct (record_iteration r a w); [reflexivity|].
    destruct (stack_pop _) as [[[]|e] w']; reflexivity.
  - destruct (stack_pop w) as [[[]|e] w']; reflexivity.
Qed.

Lemma stack_pop_trace (w : World) : trace (snd (stack_pop w)) = trace w.
Proof.
  destruct w as [[st p] tr].
  destruct st as [|f st _] using rev_ind; [reflexivity|].
  now rewrite stack_pop_snoc.
Qed.

Lemma pop_and_return_trace (self : Recording) (w : World) :
  trace (snd (pop_and_return self w)) = trace w.
Proof.
  unfold pop_and_return. rewrite <- (stack_pop_trace w).
  destruct (stack_pop w) as [[[]|e] w']; reflexivity.
Qed.

(** C1: at a scope closure, if a frame anywhere on the stack, the scope's
    own frame at the tail or an ancestor's frame below it, is named
    '_run_apply' or '_compute_totals', then no recording callback is
    invoked: the calls made on requesters are the same after the closure
    as before it. This holds wherever the sentinel sits in the stack. *)
Theorem suppressed_closure_makes_no_call
  (self : Recording) (w : World)
  (pre post : list Frame) (nm : string) (ic : Z) :
  stack (recording_iteration w) = (pre ++ (nm, ic) :: post)%list ->
  nm = "_run_apply" \/ nm = "_compute_totals" ->
  trace (snd (Recording__exit__ self w)) = trace w.
Proof.
  intros Hst Hnm. rewrite Recording__exit__cases, Hst.
  rewrite recording_justified_sentinel by now apply in_denylist_true.
  apply pop_and_return_trace.
Qed.

Lemma suppressed_closure_makes_no_call_witness :
  let w := {| recording_iteration :=
                {| stack := [("root", 1); ("_compute_totals", 2); ("mda", 3)];
                   prefix := None |};
              trace := [] |} in
  trace (snd (Recording__exit__
                (Recording__init__ "mda" 3 (Some failing_requester)) w))
  = [].
Proof.
  intros w.
  apply (suppressed_closure_makes_no_call
           (Recording__init__ "mda" 3 (Some failing_requester)) w
           [("root", 1)] [("mda", 3)] "_compute_totals" 2).
  - reflexivity.
  - right. reflexivity.
Defined.

(** C4: at a closure that is not suppressed, a requester found to be a
    solver when the scope was built has [record_iteration] called with
    exactly the two error values of the scope, and any other requester has
    it called with no argument; one call is made, in one of the two forms,
    whatever the scope's name, count and error values and whatever the
    world, which is the same for both kinds. *)
Theorem capability_dispatch
  (name0 : string) (ic : Z) (r : Requester) (a b : number) (w : World) :
  no_sentinel (stack (recording_iteration w)) ->
  let self := set_abs_rel (Recording__init__ name0 ic (Some r)) a b in
  _is_solver self = is_Solver r
  /\ trace (snd (Recording__exit__ self w))
     = (trace w
        ++ [Called (req_id r) (if is_Solver r then AbsRel a b else NoArgs)])%list.
Proof.
  intros Hns self. split; [reflexivity|].
  rewrite Recording__exit__cases.
  apply recording_justified_true in Hns. rewrite Hns.
  cbn [self set_abs_rel Recording__init__ recording_requester].
  change (dispatch_args _)
    with (if is_Solver r then AbsRel a b else NoArgs).
  destruct (record_iteration r _ w); [reflexivity|].
  now rewrite pop_and_return_trace.
Qed.

Lemma capability_dispatch_witness :
  let w := {| recording_iteration :=
                {| stack := [("root", 6); ("mda", 45)]; prefix := None |};
              trace := [] |} in
  trace (snd (Recording__exit__
                (set_abs_rel (Recording__init__ "mda" 45 (Some solver_requester))
                   (PyInt 3) (PyInt 4)) w))
  = [Called 2 (AbsRel (PyInt 3) (PyInt 4))]
  /\ trace (snd (Recording__exit__
                   (set_abs_rel
                      (Recording__init__ "mda" 45 (Some plain_requester))
                      (PyInt 3) (PyInt 4)) w))
     = [Called 1 NoArgs].
Proof.
  intros w.
  assert (Hns : no_sentinel (stack (recording_iteration w))).
  { repeat constructor; discriminate. }
  split.
  - exact (proj2 (capability_dispatch "mda" 45 solver_requester
                    (PyInt 3) (PyInt 4) w Hns)).
  - exact (proj2 (capability_dispatch "mda" 45 plain_requester
                    (PyInt 3) (PyInt 4) w Hns)).
Defined.

(** ** When the callback raises *)

(** Counterexample to C2: a scope whose requester's callback raises. The
    error reaches the caller and the frame pushed at entry is still on the
    stack, which is one deeper than before the scope. *)
Lemma failing_callback_frame_not_popped :
  run (WithRecording "root" 6 (Some failing_requester) Pass) world0
  = (Raise (UserError "record failed"),
     {| recording_iteration :=
          {| stack := [("root", 6)]; prefix := None |};
        trace := [Called 3 NoArgs] |})
  /\ depth (snd (run (WithRecording "root" 6 (Some failing_requester) Pass)
                   world0))
     <> depth world0.
Proof. split; [reflexivity|discriminate]. Qed.

(** C2, amended: at a closure that is not suppressed and whose callback
    raises, the error goes to the caller at once, after the call has been
    made and before the pop is reached: the closure removes no frame, and
    the stack and the prefix after it are exactly those at the moment the
    closure began, so the depth is the depth at that moment. *)
Theorem failing_callback_skips_pop
  (self : Recording) (r : Requester) (w : World) (e : exn) :
  recording_requester self = Some r ->
  no_sentinel (stack (recording_iteration w)) ->
  record_iteration r (dispatch_args self) w = Some e ->
  Recording__exit__ self w = (Raise e, logged w r (dispatch_args self))
  /\ recording_iteration (snd (Recording__exit__ self w))
     = recording_iteration w
  /\ depth (snd (Recording__exit__ self w)) = depth w.
Proof.
  intros Hr Hns He. rewrite Recording__exit__cases.
  apply recording_justified_true in Hns. rewrite Hns, Hr, He.
  repeat split.
Qed.

Lemma failing_callback_skips_pop_witness :
  let self := Recording__init__ "root" 6 (Some failing_requester) in
  let w := snd (Recording__enter__ self world0) in
  Recording__exit__ self w
  = (Raise (UserError "record failed"), logged w failing_requester NoArgs)
  /\ recording_iteration (snd (Recording__exit__ self w))
     = {| stack := [("root", 6)]; prefix := None |}
  /\ depth (snd (Recording__exit__ self w)) = 1%nat.
Proof.
  intros self w.
  apply (failing_callback_skips_pop self failing_requester w
           (UserError "record failed")).
  - reflexivity.
  - repeat constructor; discriminate.
  - reflexivity.
Defined.

(** ** Balance of nested scopes *)

(** Counterexample to C3: two scopes, the inner one with a callback that
    raises. The inner closure leaves its frame; the outer closure then pops
    that frame, not its own; one frame is left when all scopes are closed. *)
Lemma nested_failing_callback_unbalanced :
  run (WithRecording "root" 6 (Some plain_requester)
         (WithRecording "mda" 45 (Some failing_requester) Pass))
    world0
  = (Raise (UserError "record failed"),
     {| recording_iteration :=
          {| stack := [("root", 6)]; prefix := None |};
        trace := [Called 3 NoArgs; Called 1 NoArgs] |})
  /\ depth (snd (run (WithRecording "root" 6 (Some plain_requester)
                        (WithRecording "mda" 45 (Some failing_requester)
                           Pass))
                   world0))
     <> depth world0.
Proof. split; [reflexivity|discriminate]. Qed.

Lemma same_binding_refl (c : option Recording) : same_binding c c.
Proof. destruct c; cbn; unfold same_scope; auto. Qed.

Lemma same_binding_trans (c1 c2 c3 : option Recording) :
  same_binding c1 c2 -> same_binding c2 c3 -> same_binding c1 c3.
Proof.
  destruct c1, c2, c3; cbn; try tauto.
  unfold same_scope. intuition congruence.
Qed.

(** A body changes nothing of the object of its scope but the error
    values. *)
Lemma exec_binding (s : stmt) :
  forall cur w, same_binding cur (snd (fst (exec s cur w))).
Proof.
  induction s as [| e | s1 IH1 s2 IH2 | a r | n ic req body IH];
    intros cur w; cbn [exec].
  - apply same_binding_refl.
  - apply same_binding_refl.
  - specialize (IH1 cur w).
    destruct (exec s1 cur w) as [[[[]|e] cur1] w1]; cbn in IH1 |- *.
    + eapply same_binding_trans; [exact IH1|apply IH2].
    + exact IH1.
  - destruct cur; cbn; unfold same_scope; auto.
  - destruct (Recording__enter__ _ w) as [[rec|e] w1];
      [|apply same_binding_refl].
    destruct (exec body (Some rec) w1) as [[[[]|e] rec2] w2];
      destruct (Recording__exit__ _ w2) as [[?|?] ?];
      apply same_binding_refl.
Qed.

Lemma Recording__enter__run (self : Recording) (w : World) :
  Recording__enter__ self w =
  (Ok self,
   {| recording_iteration :=
        {| stack := stack (recording_iteration w)
                    ++ [(name self, iter_count self)];
           prefix := prefix (recording_iteration w) |};
      trace := trace w |}).
Proof. reflexivity. Qed.

Lemma pop_and_return_snoc (self : Recording) (w : World)
  (st : list Frame) (f : Frame) (p : option string) :
  recording_iteration w = {| stack := st ++ [f]; prefix := p |} ->
  pop_and_return self w
  = (Ok (released self),
     {| recording_iteration := {| stack := st; prefix := p |};
        trace := trace w |}).
Proof.
  destruct w as [ri tr]. cbn [recording_iteration trace]. intros ->.
  unfold pop_and_return. now rewrite stack_pop_snoc.
Qed.

(** A closure whose callback returns pops the tail frame. *)
Lemma Recording__exit__returns (self : Recording) (r : Requester)
  (w : World) (st : list Frame) (f : Frame) (p : option string) :
  recording_requester self = Some r ->
  (forall a w', record_iteration r a w' = None) ->
  recording_iteration w = {| stack := st ++ [f]; prefix := p |} ->
  fst (Recording__exit__ self w) = Ok (released self)
  /\ recording_iteration (snd (Recording__exit__ self w))
     = {| stack := st; prefix := p |}.
Proof.
  intros Hr Hret Hri. rewrite Recording__exit__cases, Hr, Hret.
  destruct (recording_justified _ true).
  - rewrite (pop_and_return_snoc self (logged w r _) st f p Hri). now split.
  - rewrite (pop_and_return_snoc self w st f p Hri). now split.
Qed.

(** A condition read off the program text that is enough for balance:
    every scope has a requester, and no callback ever raises. *)
Lemma balanced_when_callbacks_return (s : stmt) :
  callbacks_return s ->
  forall (cur : option Recording) (w : World),
    recording_iteration (snd (exec s cur w)) = recording_iteration w
    /\ depth (snd (exec s cur w)) = depth w.
Proof.
  intros Hs cur w.
  enough (H : recording_iteration (snd (exec s cur w)) = recording_iteration w).
  { split; [exact H|]. unfold depth. now rewrite H. }
  revert Hs cur w.
  induction s as [| e | s1 IH1 s2 IH2 | a r | n ic req body IH];
    intros Hs cur w; cbn [exec].
  - reflexivity.
  - reflexivity.
  - destruct Hs as [H1 H2]. specialize (IH1 H1 cur w).
    destruct (exec s1 cur w) as [[[[]|e] cur1] w1]; cbn [snd] in IH1 |- *.
    + now rewrite IH2.
    + exact IH1.
  - destruct cur; reflexivity.
  - destruct Hs as [(r & -> & Hret) Hbody].
    rewrite Recording__enter__run.
    set (mgr := Recording__init__ n ic (Some r)).
    set (w1 := {| recording_iteration := _; trace := trace w |}).
    specialize (IH Hbody (Some mgr) w1).
    pose proof (exec_binding body (Some mgr) w1) as Hb.
    destruct (exec body (Some mgr) w1) as [[o rec2] w2].
    cbn [fst snd] in IH, Hb.
    destruct rec2 as [r2|]; [|contradiction].
    destruct Hb as (_ & _ & Hreq & _).
    destruct (Recording__exit__returns r2 r w2
                (stack (recording_iteration w)) (n, ic)
                (prefix (recording_iteration w)))
      as [Ho Hri]; [now rewrite <- Hreq|exact Hret|exact IH|].
    destruct (Recording__exit__ r2 w2) as [o3 w3]. cbn [fst snd] in Ho, Hri.
    subst o3. destruct w as [[st p] tr]. cbn in Hri.
    destruct o as [[]|e]; exact Hri.
Qed.

Lemma pop_and_return_leak_exact (self : Recording) (w : World)
  (st leak : list Frame) (f : Frame) (p : option string) :
  recording_iteration w = {| stack := st ++ f :: leak; prefix := p |} ->
  exists leak',
    recording_iteration (snd (pop_and_return self w))
    = {| stack := st ++ leak'; prefix := p |}
    /\ List.length leak' = List.length leak.
Proof.
  intros Hri. destruct leak as [|x leak _] using rev_ind.
  - exists []. rewrite (pop_and_return_snoc self w st f p Hri).
    cbn. now rewrite app_nil_r.
  - exists (f :: leak).
    rewrite (pop_and_return_snoc self w (st ++ f :: leak) x p).
    + split; [reflexivity|]. rewrite length_app. cbn. lia.
    + rewrite Hri, <- app_assoc. reflexivity.
Qed.

(** A closure removes one frame when its call goes well and none when it
    goes wrong; the frames below stay. *)
Lemma Recording__exit__leak_exact (self : Recording) (w : World)
  (st leak : list Frame) (f : Frame) (p : option string) :
  recording_iteration w = {| stack := st ++ f :: leak; prefix := p |} ->
  exists leak',
    recording_iteration (snd (Recording__exit__ self w))
    = {| stack := st ++ leak'; prefix := p |}
    /\ List.length leak'
       = (List.length leak + if closure_call_ok self w then 0 else 1)%nat.
Proof.
  intros Hri.
  assert (Hkeep : exists leak',
             recording_iteration w = {| stack := st ++ leak'; prefix := p |}
             /\ List.length leak' = (List.length leak + 1)%nat).
  { exists (f :: leak). split; [exact Hri|cbn; lia]. }
  assert (Hpop : forall w0, recording_iteration w0 = recording_iteration w ->
             exists leak',
               recording_iteration (snd (pop_and_return self w0))
               = {| stack := st ++ leak'; prefix := p |}
               /\ List.length leak' = (List.length leak + 0)%nat).
  { intros w0 E. rewrite Hri in E.
    destruct (pop_and_return_leak_exact self w0 st leak f p E)
      as (l & Hl & Hle).
    exists l. split; [exact Hl|lia]. }
  rewrite Recording__exit__cases. unfold closure_call_ok.
  destruct (recording_justified _ true).
  - destruct (recording_requester self) as [r|]; [|exact Hkeep].
    destruct (record_iteration r _ w); [exact Hkeep|].
    now apply Hpop.
  - now apply Hpop.
Qed.

(** The frames a program leaves behind are as many as the closures whose
    call went wrong. *)
Lemma exec_leak_exact (s : stmt) :
  forall cur w,
  exists leak,
    recording_iteration (snd (exec s cur w))
    = {| stack := stack (recording_iteration w) ++ leak;
         prefix := prefix (recording_iteration w) |}
    /\ List.length leak = failed_closures s cur w.
Proof.
  induction s as [| e | s1 IH1 s2 IH2 | a r | n ic req body IH];
    intros cur w; cbn [exec failed_closures].
  - exists []. destruct w as [[st p] tr]. cbn. now rewrite app_nil_r.
  - exists []. destruct w as [[st p] tr]. cbn. now rewrite app_nil_r.
  - destruct (IH1 cur w) as (l1 & H1 & B1).
    destruct (exec s1 cur w) as [[[[]|e] cur1] w1]; cbn [snd] in H1 |- *.
    + destruct (IH2 cur1 w1) as (l2 & H2 & B2). exists (l1 ++ l2)%list.
      rewrite H2, H1. cbn. rewrite app_assoc, length_app.
      split; [reflexivity|lia].
    + exists l1. split; [exact H1|lia].
  - exists []. destruct w as [[st p] tr].
    destruct cur; cbn; now rewrite app_nil_r.
  - rewrite Recording__enter__run.
    set (mgr := Recording__init__ n ic req).
    set (w1 := {| recording_iteration := _; trace := trace w |}).
    destruct (IH (Some mgr) w1) as (l & Hl & Bl).
    destruct (exec body (Some mgr) w1) as [[o rec2] w2].
    cbn [snd] in Hl. cbn in Hl. rewrite <- app_assoc in Hl. cbn in Hl.
    set (self := match rec2 with Some r => r | None => mgr end).
    destruct (Recording__exit__leak_exact self w2 _ _ _ _ Hl)
      as (l' & Hl' & Bl').
    exists l'. split; [|lia].
    destruct o as [[]|e];
      destruct (Recording__exit__ self w2) as [[?|?] w3]; exact Hl'.
Qed.

(** C3, amended: for any program of properly nested scopes, however deep,
    run from any world, in which the call attempted at every closure goes
    well (the closure is suppressed, or its requester is there and its
    callback returns in the world at hand), the stack and the prefix after
    the program are those before it, so the depth is the same; this holds
    whether the bodies end normally or by raising. *)
Theorem balanced_when_closure_calls_go_well
  (s : stmt) (cur : option Recording) (w : World) :
  failed_closures s cur w = 0%nat ->
  recording_iteration (snd (exec s cur w)) = recording_iteration w
  /\ depth (snd (exec s cur w)) = depth w.
Proof.
  intros H0. destruct (exec_leak_exact s cur w) as (l & Hl & Bl).
  rewrite H0 in Bl. apply length_zero_iff_nil in Bl. subst l.
  rewrite app_nil_r in Hl.
  assert (E : recording_iteration (snd (exec s cur w))
              = recording_iteration w).
  { rewrite Hl. now destruct (recording_iteration w). }
  split; [exact E|]. unfold depth. now rewrite E.
Qed.

Lemma balanced_when_closure_calls_go_well_witness :
  let s := WithRecording "root" 6 (Some picky_requester)
             (Seq (WithRecording "_run_apply" 1 None
                     (WithRecording "mda" 45 (Some failing_requester) Pass))
                (RaiseStmt (UserError "diverged"))) in
  recording_iteration (snd (exec s None world0))
  = recording_iteration world0
  /\ depth (snd (exec s None world0)) = depth world0.
Proof.
  intros s. apply (balanced_when_closure_calls_go_well s None world0).
  reflexivity.
Defined.

(** The program of that witness ends by raising, holds a scope without
    requester and one whose callback would raise, both suppressed, and a
    requester whose callback raises in other worlds than the one it meets. *)
Example balanced_witness_run :
  run (WithRecording "root" 6 (Some picky_requester)
         (Seq (WithRecording "_run_apply" 1 None
                 (WithRecording "mda" 45 (Some failing_requester) Pass))
            (RaiseStmt (UserError "diverged"))))
    world0
  = (Raise (UserError "diverged"),
     {| recording_iteration := {| stack := []; prefix := None |};
        trace := [Called 4 NoArgs] |})
  /\ record_iteration picky_requester NoArgs
       {| recording_iteration :=
            {| stack := [("a", 1); ("b", 2); ("c", 3)]; prefix := None |};
          trace := [] |}
     = Some (UserError "too deep").
Proof. split; reflexivity. Qed.

(** A body that raises, in scopes whose callbacks return. *)
Example abnormal_exit_is_balanced :
  run (WithRecording "root" 6 (Some plain_requester)
         (Seq (WithRecording "mda" 45 (Some solver_requester)
                 (Seq (AssignAbsRel (PyInt 3) (PyInt 4))
                    (RaiseStmt (UserError "diverged"))))
            Pass))
    world0
  = (Raise (UserError "diverged"),
     {| recording_iteration := {| stack := []; prefix := None |};
        trace := [Called 2 (AbsRel (PyInt 3) (PyInt 4)); Called 1 NoArgs] |}).
Proof. reflexivity. Qed.

(** ** Frames below a scope; suppression inside a sentinel scope *)

Lemma pop_and_return_keeps_below (self : Recording) (w : World)
  (st leak : list Frame) (f : Frame) (p : option string) :
  recording_iteration w = {| stack := st ++ f :: leak; prefix := p |} ->
  exists leak',
    recording_iteration (snd (pop_and_return self w))
    = {| stack := st ++ leak'; prefix := p |}.
Proof.
  intros Hri. destruct leak as [|x leak _] using rev_ind.
  - exists []. rewrite (pop_and_return_snoc self w st f p Hri).
    cbn. now rewrite app_nil_r.
  - exists (f :: leak).
    rewrite (pop_and_return_snoc self w (st ++ f :: leak) x p); [reflexivity|].
    rewrite Hri, <- app_assoc. reflexivity.
Qed.

Lemma Recording__exit__keeps_below (self : Recording) (w : World)
  (st leak : list Frame) (f : Frame) (p : option string) :
  recording_iteration w = {| stack := st ++ f :: leak; prefix := p |} ->
  exists leak',
    recording_iteration (snd (Recording__exit__ self w))
    = {| stack := st ++ leak'; prefix := p |}.
Proof.
  intros Hri. rewrite Recording__exit__cases.
  destruct (recording_justified _ true).
  - destruct (recording_requester self) as [r|];
      [|exists (f :: leak); exact Hri].
    destruct (record_iteration r _ w);
      [exists (f :: leak); exact Hri|].
    now apply pop_and_return_keeps_below with (f := f) (leak := leak).
  - now apply pop_and_return_keeps_below with (f := f) (leak := leak).
Qed.

(** Whatever happens in a program, the frames that were on the stack when
    it began are still there, in place, when it ends; the prefix too. *)
Lemma exec_keeps_below (s : stmt) :
  forall cur w,
  exists leak,
    recording_iteration (snd (exec s cur w))
    = {| stack := stack (recording_iteration w) ++ leak;
         prefix := prefix (recording_iteration w) |}.
Proof.
  induction s as [| e | s1 IH1 s2 IH2 | a r | n ic req body IH];
    intros cur w; cbn [exec].
  - exists []. destruct w as [[st p] tr]. cbn. now rewrite app_nil_r.
  - exists []. destruct w as [[st p] tr]. cbn. now rewrite app_nil_r.
  - destruct (IH1 cur w) as [l1 H1].
    destruct (exec s1 cur w) as [[[[]|e] cur1] w1]; cbn [snd] in H1 |- *.
    + destruct (IH2 cur1 w1) as [l2 H2]. exists (l1 ++ l2)%list.
      rewrite H2, H1. cbn. now rewrite app_assoc.
    + now exists l1.
  - exists []. destruct w as [[st p] tr].
    destruct cur; cbn; now rewrite app_nil_r.
  - rewrite Recording__enter__run.
    set (mgr := Recording__init__ n ic req).
    set (w1 := {| recording_iteration := _; trace := trace w |}).
    destruct (IH (Some mgr) w1) as [l Hl].
    destruct (exec body (Some mgr) w1) as [[o rec2] w2].
    cbn [snd] in Hl. cbn in Hl. rewrite <- app_assoc in Hl. cbn in Hl.
    set (self := match rec2 with Some r => r | None => mgr end).
    destruct (Recording__exit__keeps_below self w2 _ _ _ _ Hl) as [l' Hl'].
    exists l'.
    destruct o as [[]|e];
      destruct (Recording__exit__ self w2) as [[?|?] w3]; exact Hl'.
Qed.

(** With a sentinel frame on the stack when a program begins, no callback
    is invoked during the whole program: a sentinel ancestor silences all
    the scopes below it. *)
Lemma exec_under_sentinel_makes_no_call (s : stmt) :
  forall cur w pre post f,
    stack (recording_iteration w) = (pre ++ f :: post)%list ->
    in_denylist (fst f) = true ->
    trace (snd (exec s cur w)) = trace w.
Proof.
  induction s as [| e | s1 IH1 s2 IH2 | a r | n ic req body IH];
    intros cur w pre post f Hst Hf; cbn [exec].
  - reflexivity.
  - reflexivity.
  - pose proof (IH1 cur w pre post f Hst Hf) as H1.
    destruct (exec_keeps_below s1 cur w) as [l Hl].
    destruct (exec s1 cur w) as [[[[]|e] cur1] w1]; cbn [snd] in H1, Hl |- *;
      [|exact H1].
    rewrite <- H1. apply (IH2 cur1 w1 pre (post ++ l)%list f); [|exact Hf].
    rewrite Hl, Hst. cbn. now rewrite <- app_assoc.
  - destruct cur; reflexivity.
  - rewrite Recording__enter__run.
    set (mgr := Recording__init__ n ic req).
    set (w1 := {| recording_iteration := _; trace := trace w |}).
    assert (Hst1 : stack (recording_iteration w1)
                   = (pre ++ f :: (post ++ [(n, ic)]))%list).
    { cbn. rewrite Hst, <- app_assoc. reflexivity. }
    pose proof (IH (Some mgr) w1 pre _ f Hst1 Hf) as Hbody.
    destruct (exec_keeps_below body (Some mgr) w1) as [l Hl].
    destruct (exec body (Some mgr) w1) as [[o rec2] w2].
    cbn [snd] in Hbody, Hl.
    set (self := match rec2 with Some r => r | None => mgr end).
    assert (Hexit : trace (snd (Recording__exit__ self w2)) = trace w).
    { rewrite Recording__exit__cases, Hl. cbn [stack].
      rewrite Hst1, <- app_assoc. cbn [app].
      rewrite recording_justified_sentinel by exact Hf.
      rewrite pop_and_return_trace. exact Hbody. }
    destruct o as [[]|e];
      destruct (Recording__exit__ self w2) as [[?|?] w3]; exact Hexit.
Qed.

(** X14: a scope that bears a sentinel name makes no call, neither at its
    own closure nor at the closure of any scope opened in its body, however
    the body and the scopes in it end. *)
Lemma sentinel_scope_makes_no_call (nm : string) (ic : Z)
  (req : option Requester) (body : stmt) (cur : option Recording)
  (w : World) :
  nm = "_run_apply" \/ nm = "_compute_totals" ->
  trace (snd (exec (WithRecording nm ic req body) cur w)) = trace w.
Proof.
  intros Hnm. cbn [exec]. rewrite Recording__enter__run.
  set (mgr := Recording__init__ nm ic req).
  set (w1 := {| recording_iteration := _; trace := trace w |}).
  assert (Hst1 : stack (recording_iteration w1)
                 = (stack (recording_iteration w) ++ (nm, ic) :: [])%list)
    by reflexivity.
  assert (Hf : in_denylist (fst (nm, ic)) = true)
    by now apply in_denylist_true.
  pose proof (exec_under_sentinel_makes_no_call body (Some mgr) w1
                _ _ _ Hst1 Hf) as Hbody.
  destruct (exec_keeps_below body (Some mgr) w1) as [l Hl].
  destruct (exec body (Some mgr) w1) as [[o rec2] w2].
  cbn [snd] in Hbody, Hl.
  set (self := match rec2 with Some r => r | None => mgr end).
  assert (Hexit : trace (snd (Recording__exit__ self w2)) = trace w).
  { rewrite Recording__exit__cases, Hl. cbn [stack].
    rewrite Hst1, <- app_assoc. cbn [app].
    rewrite recording_justified_sentinel by exact Hf.
    rewrite pop_and_return_trace. exact Hbody. }
  destruct o as [[]|e];
    destruct (Recording__exit__ self w2) as [[?|?] w3]; exact Hexit.
Qed.

(** The scenario of the spec: a scope named '_run_apply' makes no call and
    leaves the stack as deep as it found it. *)
Example run_apply_scope :
  run (WithRecording "_run_apply" 1 (Some plain_requester) Pass) world0
  = (Ok tt, world0).
Proof. reflexivity. Qed.

(** ** [pop] at a closure *)

(** A closure on an empty stack, which no properly opened scope meets,
    ends in [IndexError] once the callback has returned. *)
Lemma Recording__exit__on_empty_stack (self : Recording) (r : Requester)
  (p : option string) (tr : list event) :
  recording_requester self = Some r ->
  (forall a w, record_iteration r a w = None) ->
  fst (Recording__exit__ self
         {| recording_iteration := {| stack := []; prefix := p |};
            trace := tr |})
  = Raise IndexError.
Proof.
  intros Hr Hret. rewrite Recording__exit__cases. cbn [stack recording_iteration].
  cbn [recording_justified]. rewrite Hr, Hret. reflexivity.
Qed.


(** * Further properties of the module *)

(** ** Strings and joins *)

Lemma append_assoc (a b c : string) : (a ++ b) ++ c = a ++ (b ++ c).
Proof. induction a as [|x a IH]; cbn; [reflexivity|now rewrite IH]. Qed.

Lemma join_cons (sep x : string) (l : list string) :
  l <> [] -> Py.join sep (x :: l) = x ++ sep ++ Py.join sep l.
Proof. destruct l; [congruence|reflexivity]. Qed.

Lemma join_snoc (sep x : string) (l : list string) :
  l <> [] -> Py.join sep (l ++ [x]) = Py.join sep l ++ sep ++ x.
Proof.
  induction l as [|y l IH]; [congruence|]. intros _.
  destruct l as [|z l]; [reflexivity|].
  change ((y :: z :: l) ++ [x])%list with (y :: ((z :: l) ++ [x]))%list.
  rewrite join_cons by (cbn; discriminate).
  rewrite IH by discriminate.
  rewrite (join_cons sep y (z :: l)) by discriminate.
  now rewrite !append_assoc.
Qed.

(** Joining does not tell two neighbours from one item that holds the
    separator between them. *)
Lemma join_merge_last (sep a b : string) (l : list string) :
  Py.join sep (l ++ [a; b]) = Py.join sep (l ++ [a ++ sep ++ b]).
Proof.
  induction l as [|y l IH]; [reflexivity|].
  change ((y :: l) ++ [a; b])%list with (y :: (l ++ [a; b]))%list.
  change ((y :: l) ++ [(a ++ sep ++ b)%string])%list
    with (y :: (l ++ [(a ++ sep ++ b)%string]))%list.
  rewrite !join_cons by (destruct l; discriminate).
  now rewrite IH.
Qed.

(** ** The debugging print *)

Lemma print_loop_map (items : list Frame) (out : list string) :
  print_loop items out
  = (out ++ map (fun f => ("^^^ " ++ fst f ++ " " ++ Py.str_int (snd f))%string)
              items)%list.
Proof.
  revert out. induction items as [|[n c] items IH]; intros out; cbn [print_loop].
  - now rewrite app_nil_r.
  - rewrite IH, <- app_assoc. reflexivity.
Qed.

(** X1: [print_recording_iteration_stack] calls [print] as many times as
    the stack is deep, and twice more: first with no argument, then once per
    frame, the innermost frame first, writing "^^^ name count", then once
    with sixty carets. It leaves
    the stack, the prefix and the recorded calls as they were. *)
Theorem print_stack_innermost_first (w : World) :
  print_recording_iteration_stack w
  = (Ok ("" :: map (fun f => ("^^^ " ++ fst f ++ " "
                                ++ Py.str_int (snd f))%string)
                 (rev (stack (recording_iteration w)))
            ++ [PyOut.str_mul 60 "^"])%list,
     w)
  /\ List.length (match fst (print_recording_iteration_stack w) with
                  | Ok texts => texts
                  | Raise _ => []
                  end)
     = (depth w + 2)%nat.
Proof.
  assert (E : print_recording_iteration_stack w
              = (Ok ("" :: map (fun f => ("^^^ " ++ fst f ++ " "
                                          ++ Py.str_int (snd f))%string)
                             (rev (stack (recording_iteration w)))
                        ++ [PyOut.str_mul 60 "^"])%list, w)).
  { unfold print_recording_iteration_stack, bind, get, ret.
    rewrite print_loop_map. reflexivity. }
  split; [exact E|].
  rewrite E. cbn [fst List.length]. rewrite length_app, length_map, length_rev.
  unfold depth. cbn [List.length]. lia.
Qed.

(** ** The formatter and the frames *)

(** X2: entering a scope extends the coordinate at its end and changes
    nothing before: the coordinate inside the scope is the coordinate outside
    it, then "|" unless the stack was empty, then "name|count" of the scope.
    So the coordinate of a scope begins with the coordinate of its parent. *)
Theorem format_after_enter (MPI : MPI_t) (self : Recording) (w : World) :
  format_coordinate MPI
    (recording_iteration (snd (Recording__enter__ self w)))
  = format_coordinate MPI (recording_iteration w)
    ++ match stack (recording_iteration w) with
       | [] => ""
       | _ :: _ => "|"
       end
    ++ name self ++ "|" ++ Py.str_int (iter_count self).
Proof.
  rewrite Recording__enter__run. cbn [snd recording_iteration].
  rewrite !format_coordinate_unfold. cbn [prefix stack].
  generalize ((if Py.truthy (prefix (recording_iteration w))
               then Py.percent_s (prefix (recording_iteration w)) ++ "_"
               else "")
              ++ "rank"
              ++ match MPI with Some rank => Py.str_int rank | None => "0" end
              ++ ":") as head.
  intros head. rewrite map_app, append_assoc. cbn [map]. f_equal.
  destruct (stack (recording_iteration w)) as [|f st].
  - reflexivity.
  - rewrite join_snoc by discriminate. reflexivity.
Qed.

(** X3: the separator is not escaped in names. Two frames, the second
    inside the first, give the same coordinate as the single frame whose
    name is the first frame's rendering, a "|" and the second frame's name:
    the stack cannot always be read back from the coordinate. *)
Theorem format_does_not_escape_separator
  (MPI : MPI_t) (p : option string) (st : list Frame)
  (n1 n2 : string) (c1 c2 : Z) :
  format_coordinate MPI
    {| stack := st ++ [(n1, c1); (n2, c2)]; prefix := p |}
  = format_coordinate MPI
      {| stack := st ++ [(n1 ++ "|" ++ Py.str_int c1 ++ "|" ++ n2, c2)];
         prefix := p |}.
Proof.
  rewrite !format_coordinate_unfold. cbn [prefix stack]. f_equal.
  rewrite !map_app. cbn [map]. rewrite join_merge_last. do 2 f_equal.
  unfold render, separator. cbn [fst snd]. now rewrite !append_assoc.
Qed.

(** ** What a closure does to the stack *)

Lemma sentinel_exists_not_justified (frames : list Frame) :
  Exists (fun g => fst g = "_run_apply" \/ fst g = "_compute_totals") frames ->
  recording_justified frames true = false.
Proof.
  intros H. apply Exists_exists in H. destruct H as (g & Hin & Hg).
  apply in_split in Hin. destruct Hin as (pre & post & ->).
  apply recording_justified_sentinel. now apply in_denylist_true.
Qed.

(** X5: a suppressed closure never fails on a stack that is not empty,
    whatever the requester is (absent, or with a callback that would raise):
    it returns, makes no call, removes the tail frame and nothing else, and
    releases the requester. *)
Theorem suppressed_closure_pops_silently
  (self : Recording) (w : World) (st : list Frame) (f : Frame)
  (p : option string) :
  recording_iteration w = {| stack := st ++ [f]; prefix := p |} ->
  Exists (fun g => fst g = "_run_apply" \/ fst g = "_compute_totals")
    (st ++ [f]) ->
  Recording__exit__ self w
  = (Ok (released self),
     {| recording_iteration := {| stack := st; prefix := p |};
        trace := trace w |}).
Proof.
  intros Hri Hex. rewrite Recording__exit__cases, Hri. cbn [stack].
  rewrite (sentinel_exists_not_justified _ Hex).
  exact (pop_and_return_snoc self w st f p Hri).
Qed.

Lemma suppressed_closure_pops_silently_witness :
  let w := {| recording_iteration :=
                {| stack := [("_run_apply", 1); ("mda", 3)];
                   prefix := Some "case" |};
              trace := [] |} in
  Recording__exit__ (Recording__init__ "mda" 3 None) w
  = (Ok (released (Recording__init__ "mda" 3 None)),
     {| recording_iteration :=
          {| stack := [("_run_apply", 1)]; prefix := Some "case" |};
        trace := [] |}).
Proof.
  intros w.
  apply (suppressed_closure_pops_silently
           (Recording__init__ "mda" 3 None) w
           [("_run_apply", 1)] ("mda", 3) (Some "case")).
  - reflexivity.
  - apply Exists_cons_hd. left. reflexivity.
Defined.

(** X6: a closure that is not suppressed and whose callback returns makes
    exactly one call and then removes the tail frame, whatever that frame
    is: it is not compared with the name and the count of the scope. The
    prefix is kept and the requester is released. *)
Theorem closure_pops_tail_unchecked
  (self : Recording) (r : Requester) (w : World)
  (st : list Frame) (f : Frame) (p : option string) :
  recording_requester self = Some r ->
  record_iteration r (dispatch_args self) w = None ->
  no_sentinel (st ++ [f]) ->
  recording_iteration w = {| stack := st ++ [f]; prefix := p |} ->
  Recording__exit__ self w
  = (Ok (released self),
     {| recording_iteration := {| stack := st; prefix := p |};
        trace := trace w ++ [Called (req_id r) (dispatch_args self)] |}).
Proof.
  intros Hr Hret Hns Hri. rewrite Recording__exit__cases, Hri. cbn [stack].
  apply recording_justified_true in Hns. rewrite Hns, Hr, Hret.
  now rewrite (pop_and_return_snoc self (logged w r _) st f p Hri).
Qed.

Lemma closure_pops_tail_unchecked_witness :
  let self := Recording__init__ "root" 6 (Some plain_requester) in
  let w := {| recording_iteration :=
                {| stack := [("root", 6); ("stale", 9)]; prefix := None |};
              trace := [] |} in
  Recording__exit__ self w
  = (Ok (released self),
     {| recording_iteration :=
          {| stack := [("root", 6)]; prefix := None |};
        trace := [Called 1 NoArgs] |}).
Proof.
  intros self w.
  apply (closure_pops_tail_unchecked self plain_requester w
           [("root", 6)] ("stale", 9) None).
  - reflexivity.
  - reflexivity.
  - repeat constructor; discriminate.
  - reflexivity.
Defined.

(** X7: a closure on an empty stack, met only when scopes are not opened
    and closed in pairs, is not suppressed; the callback is called first,
    and when it returns the pop raises [IndexError]: the call has been made
    when the error reaches the caller. *)
Theorem closure_on_empty_stack
  (self : Recording) (r : Requester) (w : World) :
  stack (recording_iteration w) = [] ->
  recording_requester self = Some r ->
  record_iteration r (dispatch_args self) w = None ->
  Recording__exit__ self w
  = (Raise IndexError, logged w r (dispatch_args self)).
Proof.
  intros Hst Hr Hret. rewrite Recording__exit__cases, Hst.
  cbn [recording_justified]. rewrite Hr, Hret.
  unfold pop_and_return, stack_pop, bind. rewrite get_stack_run.
  cbn [logged recording_iteration]. rewrite Hst. reflexivity.
Qed.

Lemma closure_on_empty_stack_witness :
  Recording__exit__ (Recording__init__ "root" 6 (Some solver_requester))
    world0
  = (Raise IndexError,
     logged world0 solver_requester (AbsRel (PyInt 0) (PyInt 0))).
Proof.
  apply (closure_on_empty_stack
           (Recording__init__ "root" 6 (Some solver_requester))
           solver_requester world0); reflexivity.
Defined.

(** X8: a scope object closes once. A closure that returns hands back the
    object without its requester; and a closure of an object without
    requester (released, or built with [None]), when not suppressed, raises
    [AttributeError] at once: no call is made and no frame is removed. *)
Theorem closure_is_one_shot
  (self self' : Recording) (w w' : World) :
  Recording__exit__ self w = (Ok self', w') ->
  recording_requester self' = None
  /\ forall w'' : World,
       no_sentinel (stack (recording_iteration w'')) ->
       Recording__exit__ self' w'' = (Raise AttributeError, w'').
Proof.
  intros Hexit.
  assert (Hs : self' = released self).
  { rewrite Recording__exit__cases in Hexit. unfold pop_and_return in Hexit.
    destruct (recording_justified _ true).
    - destruct (recording_requester self) as [r|]; [|discriminate].
      destruct (record_iteration r _ w); [discriminate|].
      destruct (stack_pop _) as [[[]|e] w1]; congruence.
    - destruct (stack_pop _) as [[[]|e] w1]; congruence. }
  subst self'. split; [reflexivity|].
  intros w'' Hns. rewrite Recording__exit__cases.
  apply recording_justified_true in Hns. now rewrite Hns.
Qed.

Lemma closure_is_one_shot_witness :
  let self := Recording__init__ "root" 6 (Some plain_requester) in
  let w := snd (Recording__enter__ self world0) in
  let w' := {| recording_iteration := recording_iteration_initial;
               trace := [Called 1 NoArgs] |} in
  Recording__exit__ self w = (Ok (released self), w')
  /\ recording_requester (released self) = None
  /\ Recording__exit__ (released self) w = (Raise AttributeError, w).
Proof.
  intros self w w'.
  assert (Hexit : Recording__exit__ self w = (Ok (released self), w'))
    by reflexivity.
  destruct (closure_is_one_shot self (released self) w w' Hexit) as [H1 H2].
  split; [exact Hexit|]. split; [exact H1|].
  apply H2. repeat constructor; discriminate.
Defined.

(** ** What a program of scopes does to the stack and to the calls *)

Lemma pop_and_return_leak (self : Recording) (w : World)
  (st leak : list Frame) (f : Frame) (p : option string) :
  recording_iteration w = {| stack := st ++ f :: leak; prefix := p |} ->
  exists leak',
    recording_iteration (snd (pop_and_return self w))
    = {| stack := st ++ leak'; prefix := p |}
    /\ (List.length leak' <= List.length leak)%nat.
Proof.
  intros Hri. destruct leak as [|x leak _] using rev_ind.
  - exists []. rewrite (pop_and_return_snoc self w st f p Hri).
    cbn. rewrite app_nil_r. split; [reflexivity|lia].
  - exists (f :: leak).
    rewrite (pop_and_return_snoc self w (st ++ f :: leak) x p).
    + split; [reflexivity|]. rewrite length_app. cbn. lia.
    + rewrite Hri, <- app_assoc. reflexivity.
Qed.

Lemma Recording__exit__leak (self : Recording) (w : World)
  (st leak : list Frame) (f : Frame) (p : option string) :
  recording_iteration w = {| stack := st ++ f :: leak; prefix := p |} ->
  exists leak',
    recording_iteration (snd (Recording__exit__ self w))
    = {| stack := st ++ leak'; prefix := p |}
    /\ (List.length leak' <= S (List.length leak))%nat.
Proof.
  intros Hri.
  assert (Hkeep : exists leak',
             recording_iteration w = {| stack := st ++ leak'; prefix := p |}
             /\ (List.length leak' <= S (List.length leak))%nat).
  { exists (f :: leak). split; [exact Hri|cbn; lia]. }
  assert (Hpop : forall w0, recording_iteration w0 = recording_iteration w ->
             exists leak',
               recording_iteration (snd (pop_and_return self w0))
               = {| stack := st ++ leak'; prefix := p |}
               /\ (List.length leak' <= S (List.length leak))%nat).
  { intros w0 E. rewrite Hri in E.
    destruct (pop_and_return_leak self w0 st leak f p E) as (l & Hl & Hle).
    exists l. split; [exact Hl|lia]. }
  rewrite Recording__exit__cases.
  destruct (recording_justified _ true).
  - destruct (recording_requester self) as [r|]; [|exact Hkeep].
    destruct (record_iteration r _ w); [exact Hkeep|].
    now apply Hpop.
  - now apply Hpop.
Qed.

Lemma exec_leak (s : stmt) :
  forall cur w,
  exists leak,
    recording_iteration (snd (exec s cur w))
    = {| stack := stack (recording_iteration w) ++ leak;
         prefix := prefix (recording_iteration w) |}
    /\ (List.length leak <= count_scopes s)%nat.
Proof.
  induction s as [| e | s1 IH1 s2 IH2 | a r | n ic req body IH];
    intros cur w; cbn [exec count_scopes].
  - exists []. destruct w as [[st p] tr]. cbn. now rewrite app_nil_r.
  - exists []. destruct w as [[st p] tr]. cbn. now rewrite app_nil_r.
  - destruct (IH1 cur w) as (l1 & H1 & B1).
    destruct (exec s1 cur w) as [[[[]|e] cur1] w1]; cbn [snd] in H1 |- *.
    + destruct (IH2 cur1 w1) as (l2 & H2 & B2). exists (l1 ++ l2)%list.
      rewrite H2, H1. cbn. rewrite app_assoc, length_app.
      split; [reflexivity|lia].
    + exists l1. split; [exact H1|lia].
  - exists []. destruct w as [[st p] tr].
    destruct cur; cbn; now rewrite app_nil_r.
  - rewrite Recording__enter__run.
    set (mgr := Recording__init__ n ic req).
    set (w1 := {| recording_iteration := _; trace := trace w |}).
    destruct (IH (Some mgr) w1) as (l & Hl & Bl).
    destruct (exec body (Some mgr) w1) as [[o rec2] w2].
    cbn [snd] in Hl. cbn in Hl. rewrite <- app_assoc in Hl. cbn in Hl.
    set (self := match rec2 with Some r => r | None => mgr end).
    destruct (Recording__exit__leak self w2 _ _ _ _ Hl) as (l' & Hl' & Bl').
    exists l'. split; [|lia].
    destruct o as [[]|e];
      destruct (Recording__exit__ self w2) as [[?|?] w3]; exact Hl'.
Qed.

(** X9: no program of scopes, whatever fails in it, removes or changes a
    frame that was on the stack when it began, nor the prefix: the stack
    after the program is the stack before it followed by the frames left
    behind, at most one per scope of the program; so the depth never goes
    below its value at the start. *)
Theorem scopes_keep_outer_frames (s : stmt) (cur : option Recording)
  (w : World) :
  (exists leak,
     stack (recording_iteration (snd (exec s cur w)))
     = (stack (recording_iteration w) ++ leak)%list
     /\ (List.length leak <= count_scopes s)%nat)
  /\ prefix (recording_iteration (snd (exec s cur w)))
     = prefix (recording_iteration w)
  /\ (depth w <= depth (snd (exec s cur w)) <= depth w + count_scopes s)%nat.
Proof.
  destruct (exec_leak s cur w) as (l & Hl & Bl).
  unfold depth. rewrite Hl. cbn [stack prefix]. rewrite length_app.
  split; [|split; [reflexivity|lia]].
  exists l. now split.
Qed.

Lemma Recording__exit__calls (self : Recording) (w : World) :
  exists calls,
    trace (snd (Recording__exit__ self w)) = (trace w ++ calls)%list
    /\ (List.length calls <= 1)%nat.
Proof.
  rewrite Recording__exit__cases.
  destruct (recording_justified _ true).
  - destruct (recording_requester self) as [r|].
    + exists [Called (req_id r) (dispatch_args self)].
      split; [|cbn; lia].
      destruct (record_iteration r _ w); [reflexivity|].
      now rewrite pop_and_return_trace.
    + exists []. cbn. rewrite app_nil_r. split; [reflexivity|lia].
  - exists []. rewrite pop_and_return_trace, app_nil_r.
    split; [reflexivity|cbn; lia].
Qed.

(** X10: a program of scopes only adds to the calls made on requesters,
    and adds at most one call per scope of the program: no call recorded
    before is removed or changed, and no scope records twice. *)
Theorem at_most_one_call_per_scope (s : stmt) :
  forall (cur : option Recording) (w : World),
  exists calls,
    trace (snd (exec s cur w)) = (trace w ++ calls)%list
    /\ (List.length calls <= count_scopes s)%nat.
Proof.
  induction s as [| e | s1 IH1 s2 IH2 | a r | n ic req body IH];
    intros cur w; cbn [exec count_scopes].
  - exists []. cbn. rewrite app_nil_r. split; [reflexivity|lia].
  - exists []. cbn. rewrite app_nil_r. split; [reflexivity|lia].
  - destruct (IH1 cur w) as (c1 & H1 & B1).
    destruct (exec s1 cur w) as [[[[]|e] cur1] w1]; cbn [snd] in H1 |- *.
    + destruct (IH2 cur1 w1) as (c2 & H2 & B2). exists (c1 ++ c2)%list.
      rewrite H2, H1, app_assoc, length_app. split; [reflexivity|lia].
    + exists c1. split; [exact H1|lia].
  - exists []. destruct cur; cbn; rewrite app_nil_r; (split; [reflexivity|lia]).
  - rewrite Recording__enter__run.
    set (mgr := Recording__init__ n ic req).
    set (w1 := {| recording_iteration := _; trace := trace w |}).
    destruct (IH (Some mgr) w1) as (c & Hc & Bc).
    destruct (exec body (Some mgr) w1) as [[o rec2] w2].
    cbn [snd] in Hc. cbn [w1 trace] in Hc.
    set (self := match rec2 with Some r => r | None => mgr end).
    destruct (Recording__exit__calls self w2) as (c' & Hc' & Bc').
    exists (c ++ c')%list. split.
    + rewrite app_assoc, <- Hc, <- Hc'.
      destruct o as [[]|e];
        destruct (Recording__exit__ self w2) as [[?|?] w3]; reflexivity.
    + rewrite length_app. lia.
Qed.

(** ** A scope around its body *)




Lemma scope_closure_trace
  (n : string) (ic : Z) (r : Requester) (body : stmt)
  (cur : option Recording) (w : World) :
  let mgr := Recording__init__ n ic (Some r) in
  let res := exec body (Some mgr) (snd (Recording__enter__ mgr w)) in
  no_sentinel (stack (recording_iteration (snd res))) ->
  trace (snd (exec (WithRecording n ic (Some r) body) cur w))
  = (trace (snd res)
     ++ [Called (req_id r)
           (match snd (fst res) with
            | Some r2 => dispatch_args r2
            | None => dispatch_args mgr
            end)])%list.
Proof.
  intros mgr res Hns. cbn [exec]. subst res. fold mgr.
  rewrite Recording__enter__run in Hns |- *. cbn [snd] in Hns |- *.
  set (w1 := {| recording_iteration := _; trace := trace w |}) in *.
  pose proof (exec_binding body (Some mgr) w1) as Hb.
  destruct (exec body (Some mgr) w1) as [[o rec2] w2].
  cbn [fst snd] in Hns, Hb |- *.
  destruct rec2 as [r2|]; [|contradiction].
  destruct Hb as (_ & _ & Hreq & _).
  assert (Hexit : trace (snd (Recording__exit__ r2 w2))
                  = (trace w2 ++ [Called (req_id r) (dispatch_args r2)])%list).
  { rewrite Recording__exit__cases.
    apply recording_justified_true in Hns. rewrite Hns, <- Hreq.
    cbn [mgr Recording__init__ recording_requester].
    destruct (record_iteration r _ w2); [reflexivity|].
    now rewrite pop_and_return_trace. }
  destruct o as [[]|e];
    destruct (Recording__exit__ r2 w2) as [[?|?] w3]; exact Hexit.
Qed.

(** X12: the closure of a scope records on every way out of its body,
    normal or by an exception: when no frame bears a sentinel after the
    body, exactly one call is added to those made so far, on the requester
    of the scope, with the arguments that the manager of the scope holds
    when the body ends. (Each scope is opened by a function of its own, so
    the [rec] of the body is the manager of the scope throughout.) *)
Theorem scope_records_on_every_exit
  (n : string) (ic : Z) (r : Requester) (body : stmt)
  (cur : option Recording) (w : World) :
  let mgr := Recording__init__ n ic (Some r) in
  let res := exec body (Some mgr) (snd (Recording__enter__ mgr w)) in
  no_sentinel (stack (recording_iteration (snd res))) ->
  trace (snd (exec (WithRecording n ic (Some r) body) cur w))
  = (trace (snd res)
     ++ [Called (req_id r)
           (match snd (fst res) with
            | Some r2 => dispatch_args r2
            | None => dispatch_args mgr
            end)])%list.
Proof. exact (scope_closure_trace n ic r body cur w). Qed.

Lemma scope_records_on_every_exit_witness :
  trace (snd (exec (WithRecording "mda" 45 (Some solver_requester)
                      (Seq (AssignAbsRel (PyInt 3) (PyInt 4))
                         (RaiseStmt (UserError "diverged"))))
                None world0))
  = [Called 2 (AbsRel (PyInt 3) (PyInt 4))].
Proof.
  apply (scope_records_on_every_exit "mda" 45 solver_requester
           (Seq (AssignAbsRel (PyInt 3) (PyInt 4))
              (RaiseStmt (UserError "diverged")))
           None world0).
  repeat constructor; discriminate.
Defined.

(** X13: the error values a solver is recorded with are those assigned
    last in the body. When the body of a solver's scope ends normally with
    the assignment of [a] and [b] to [abs] and [rel] of its [rec], and the
    closure is not suppressed, the call made at the closure carries exactly
    [a] and [b], whatever was assigned earlier in the body and whatever
    scopes the calls made in the body opened. (Each scope is opened by a
    function of its own, so those scopes bind the [rec] of their functions
    and the [rec] of the body stays the manager of the solver's scope.) *)
Theorem closure_records_last_assigned_values
  (n : string) (ic : Z) (r : Requester) (body : stmt) (a b : number)
  (cur : option Recording) (w : World) :
  let mgr := Recording__init__ n ic (Some r) in
  let res := exec body (Some mgr) (snd (Recording__enter__ mgr w)) in
  fst (fst res) = Ok tt ->
  is_Solver r = true ->
  no_sentinel (stack (recording_iteration (snd res))) ->
  trace (snd (exec (WithRecording n ic (Some r)
                      (Seq body (AssignAbsRel a b))) cur w))
  = (trace (snd res) ++ [Called (req_id r) (AbsRel a b)])%list.
Proof.
  intros mgr res Hok Hsolver Hns.
  pose proof (exec_binding body (Some mgr) (snd (Recording__enter__ mgr w)))
    as Hb.
  pose proof (scope_closure_trace n ic r (Seq body (AssignAbsRel a b)) cur w)
    as H.
  cbv zeta in H. fold mgr in H. subst res.
  revert Hok Hns Hb H.
  change (exec (Seq body (AssignAbsRel a b)) (Some mgr)
            (snd (Recording__enter__ mgr w)))
    with (match exec body (Some mgr) (snd (Recording__enter__ mgr w)) with
          | (Ok _, cur1, w1) => exec (AssignAbsRel a b) cur1 w1
          | (Raise e, cur1, w1) => (Raise e, cur1, w1)
          end).
  destruct (exec body (Some mgr) (snd (Recording__enter__ mgr w)))
    as [[o rec2] w2].
  cbn [fst snd]. intros -> Hns Hb.
  destruct rec2 as [r2|]; [|contradiction].
  destruct Hb as (_ & _ & _ & Hsol).
  cbn [exec fst snd]. intros H. rewrite (H Hns). do 3 f_equal.
  unfold dispatch_args. cbn [set_abs_rel _is_solver abs rel].
  rewrite <- Hsol. cbn [mgr Recording__init__ _is_solver].
  now rewrite Hsolver.
Qed.

Lemma closure_records_last_assigned_values_witness :
  trace (snd (exec (WithRecording "mda" 45 (Some solver_requester)
                      (Seq (Seq (AssignAbsRel (PyInt 9) (PyInt 9))
                              (WithRecording "d1" 2 (Some plain_requester)
                                 Pass))
                         (AssignAbsRel (PyInt 3) (PyInt 4))))
                None world0))
  = [Called 1 NoArgs; Called 2 (AbsRel (PyInt 3) (PyInt 4))].
Proof.
  apply (closure_records_last_assigned_values "mda" 45 solver_requester
           (Seq (AssignAbsRel (PyInt 9) (PyInt 9))
              (WithRecording "d1" 2 (Some plain_requester) Pass))
           (PyInt 3) (PyInt 4) None world0).
  - reflexivity.
  - reflexivity.
  - repeat constructor; discriminate.
Defined.

Lemma sentinel_scope_makes_no_call_witness :
  trace (snd (exec (WithRecording "_compute_totals" 1 (Some plain_requester)
                      (Seq (WithRecording "mda" 45 (Some failing_requester)
                              Pass)
                         (WithRecording "d1" 2 (Some solver_requester) Pass)))
                None world0))
  = [].
Proof.
  apply (sentinel_scope_makes_no_call "_compute_totals" 1
           (Some plain_requester)
           (Seq (WithRecording "mda" 45 (Some failing_requester) Pass)
              (WithRecording "d1" 2 (Some solver_requester) Pass))
           None world0).
  right. reflexivity.
Defined.


(** X15: the depth of the stack after a program of scopes is its depth
    before the program plus the number of closures whose call went wrong
    (the callback raised, or the requester was absent at a closure that was
    not suppressed): each such closure leaves one frame for good, and the
    others leave none. So a program is balanced exactly when no closure
    call went wrong. *)
Theorem depth_grows_by_failed_closures
  (s : stmt) (cur : option Recording) (w : World) :
  depth (snd (exec s cur w)) = (depth w + failed_closures s cur w)%nat
  /\ (depth (snd (exec s cur w)) = depth w
      <-> failed_closures s cur w = 0%nat).
Proof.
  destruct (exec_leak_exact s cur w) as (l & Hl & Bl).
  assert (E : depth (snd (exec s cur w))
              = (depth w + failed_closures s cur w)%nat).
  { unfold depth. rewrite Hl. cbn [stack]. rewrite length_app. lia. }
  split; [exact E|]. rewrite E. lia.
Qed.
